(** * Verification of the travel-investment digest (webscrapercode.py)

    A shallow embedding of the selection pipeline of [webscrapercode.py]:
    the JSON values the upstream API returns, the helper functions
    ([norm_list_to_strings], [extract_company_uuid], [get_company],
    [is_travel_company], [safe_amount], [fetch_recent_rounds]) and the core
    loop [pick_two_latest_travel], followed by the properties stated for
    them.

    Conventions of the embedding:
    - a Python [str] is a [string] whose characters are code points below
      256, a Python [int] is a [Z], a Python [float] is a binary64 value
      ([spec_float] at precision 53, exponent bound 1024);
    - a [dict] decoded from JSON is an association list in insertion order
      (keys are strings, looked up first match);
    - a call that can raise returns a [result]; the exception classes are
      the ones the interpreter raises;
    - the two HTTP endpoints are functions handed to the pipeline, and the
      pipeline state records every company lookup it issues. *)

From Stdlib Require Import ZArith List String Ascii Bool Lia DecimalString.
From Stdlib Require Import SpecFloat Sorting.Permutation.
From stdpp Require Import gmap strings.
Import ListNotations.

Local Open Scope Z_scope.

(** ** Exceptions

    [HTTPError] stands for whatever a request raises: a status other than
    2xx once the retries are spent, a transport failure, a body that is not
    JSON. *)

Inductive exn : Type :=
| AttributeError
| TypeError
| ValueError
| OverflowError
| HTTPError.

Inductive result (A : Type) : Type :=
| Ok (a : A)
| Raise (e : exn).

Arguments Ok {A} a.
Arguments Raise {A} e.

Definition bind {A B : Type} (r : result A) (k : A -> result B) : result B :=
  match r with
  | Ok a => k a
  | Raise e => Raise e
  end.

Notation "'let*' x ':=' r 'in' k" := (bind r (fun x => k))
  (at level 10, x name, r at level 100, k at level 200).

(** ** Strings *)

Module PyStr.

Definition dquote : ascii := ascii_of_N 34.
Definition squote : ascii := ascii_of_N 39.
Definition backslash : ascii := ascii_of_N 92.

(** [str.lower] on code points below 256: the ASCII capitals and the
    Latin-1 capitals U+00C0..U+00DE (U+00D7, the multiplication sign,
    apart) move up by 32. *)
Definition lower_char (c : ascii) : ascii :=
  let n := N_of_ascii c in
  if ((65 <=? n) && (n <=? 90) ||
      (192 <=? n) && (n <=? 222) && negb (n =? 215))%N
  then ascii_of_N (n + 32) else c.

Fixpoint lower (s : string) : string :=
  match s with
  | EmptyString => EmptyString
  | String c s' => String (lower_char c) (lower s')
  end.

(** [needle in hay] *)
Fixpoint contains (needle hay : string) : bool :=
  String.prefix needle hay ||
  match hay with
  | EmptyString => false
  | String _ hay' => contains needle hay'
  end.

(** [sep.join(parts)] *)
Definition join (sep : string) (parts : list string) : string :=
  String.concat sep parts.

(** [str(n)] for an [int]. *)
Definition of_Z (n : Z) : string := NilZero.string_of_int (Z.to_int n).

(** [a < b] on strings: lexicographic on code points. *)
Definition ltb (a b : string) : bool := String.ltb a b.

Definition isdigit (c : ascii) : bool :=
  let n := N_of_ascii c in ((48 <=? n) && (n <=? 57))%N.

(** [repr(s)] for a [str]: single quotes unless the text holds a single
    quote and no double quote; the quote and the backslash are escaped,
    tab, newline and carriage return get their letter, and the other
    characters that are not printable are written [\xNN]. *)
Definition hex_digit (n : N) : ascii :=
  (if n <? 10 then ascii_of_N (48 + n) else ascii_of_N (87 + n))%N.

Definition printable (c : ascii) : bool :=
  let n := N_of_ascii c in
  ((32 <=? n) && (n <? 127) ||
   (161 <=? n) && negb (n =? 173))%N.

Definition escape_char (q c : ascii) : string :=
  let n := N_of_ascii c in
  if Ascii.eqb c q || Ascii.eqb c backslash
  then String backslash (String c EmptyString)
  else if (n =? 9)%N then String backslash "t"
  else if (n =? 10)%N then String backslash "n"
  else if (n =? 13)%N then String backslash "r"
  else if printable c then String c EmptyString
  else String backslash
         (String "x" (String (hex_digit (n / 16)) (String (hex_digit (n mod 16)) EmptyString))).

Fixpoint escape (q : ascii) (s : string) : string :=
  match s with
  | EmptyString => EmptyString
  | String c s' => (escape_char q c ++ escape q s')%string
  end.

Definition quote_for (s : string) : ascii :=
  if contains (String squote EmptyString) s &&
     negb (contains (String dquote EmptyString) s)
  then dquote else squote.

Definition repr (s : string) : string :=
  let q := quote_for s in
  String q (escape q s ++ String q EmptyString)%string.

(** The [,] format option: the decimal digits in groups of three. *)
Fixpoint commas (digits : string) : string :=
  match digits with
  | EmptyString => EmptyString
  | String c rest =>
      let n := String.length rest in
      if (negb (n =? 0) && (n mod 3 =? 0))%nat
      then String c (String "," (commas rest))
      else String c (commas rest)
  end.

(** [f"{n:,}"] *)
Definition format_grouped (n : Z) : string :=
  if n <? 0 then String "-" (commas (of_Z (- n))) else commas (of_Z n).

End PyStr.

(** ** Floating-point numbers *)

Module PyFloat.

Definition prec : Z := 53.
Definition emax : Z := 1024.

Definition is_zero (f : spec_float) : bool :=
  match f with S754_zero _ => true | _ => false end.

Definition same (f g : spec_float) : bool :=
  match f, g with
  | S754_zero s, S754_zero t => Bool.eqb s t
  | S754_infinity s, S754_infinity t => Bool.eqb s t
  | S754_nan, S754_nan => true
  | S754_finite s m e, S754_finite t n d =>
      Bool.eqb s t && (m =? n)%positive && (e =? d)
  | _, _ => false
  end.

(** [float(n)] for an [int]: the nearest binary64, ties to even; an
    [int] beyond the largest finite value raises. *)
Definition of_Z (n : Z) : result spec_float :=
  match binary_normalize prec emax n 0 false with
  | S754_infinity _ => Raise OverflowError
  | f => Ok f
  end.

(** The binary64 nearest to [(-1)^neg * m * 10^e], ties to even. *)
Definition of_decimal (neg : bool) (m : N) (e : Z) : spec_float :=
  match m with
  | N0 => S754_zero neg
  | Npos p =>
      if 0 <=? e
      then binary_round prec emax neg (Z.to_pos (Zpos p * 10 ^ e)) 0
      else
        let '(q, e', l) := SFdiv_core_binary prec emax (Zpos p) 0 (10 ^ (- e)) 0 in
        binary_round_aux prec emax neg q e' l
  end.

(** [int(f)]: truncation toward zero. *)
Definition magnitude_floor (m : positive) (e : Z) : Z :=
  if 0 <=? e then Zpos m * 2 ^ e else Zpos m / 2 ^ (- e).

Definition to_Z (f : spec_float) : result Z :=
  match f with
  | S754_zero _ => Ok 0
  | S754_nan => Raise ValueError
  | S754_infinity _ => Raise OverflowError
  | S754_finite s m e =>
      Ok (if s then - magnitude_floor m e else magnitude_floor m e)
  end.

(** *** [float(s)] for a [str]

    The text is read without the white space around it.  White space is,
    for [float], the six ASCII characters tab, line feed, vertical tab,
    form feed, carriage return and space, and below 256 the two spaces
    that are not ASCII, U+0085 and U+00A0; the four separators U+001C to
    U+001F, which [str.isspace] counts, are not. *)

Definition isspace (c : ascii) : bool :=
  let n := N_of_ascii c in
  ((9 <=? n) && (n <=? 13) || (n =? 32) || (n =? 133) || (n =? 160))%N.

Fixpoint lstrip (l : list ascii) : list ascii :=
  match l with
  | c :: l' => if isspace c then lstrip l' else l
  | [] => []
  end.

Definition strip (l : list ascii) : list ascii :=
  rev (lstrip (rev (lstrip l))).

Fixpoint span_digits (l : list ascii) : list ascii * list ascii :=
  match l with
  | c :: l' =>
      if PyStr.isdigit c
      then let '(d, r) := span_digits l' in (c :: d, r)
      else ([], l)
  | [] => ([], [])
  end.

Definition digits_value (d : list ascii) : N :=
  fold_left (fun acc c => (10 * acc + (N_of_ascii c - 48))%N) d 0%N.

(** Underscores may only sit between two digits; they are dropped. *)
Fixpoint drop_underscores (prev : option ascii) (l : list ascii)
  : option (list ascii) :=
  match l with
  | [] =>
      match prev with
      | Some "_"%char => None
      | _ => Some []
      end
  | c :: l' =>
      if Ascii.eqb c "_"
      then match prev with
           | Some p => if PyStr.isdigit p then drop_underscores (Some c) l' else None
           | None => None
           end
      else match prev with
           | Some "_"%char =>
               if PyStr.isdigit c
               then option_map (cons c) (drop_underscores (Some c) l')
               else None
           | _ => option_map (cons c) (drop_underscores (Some c) l')
           end
  end.

Definition take_sign (l : list ascii) : bool * list ascii :=
  match l with
  | "-"%char :: r => (true, r)
  | "+"%char :: r => (false, r)
  | _ => (false, l)
  end.

Definition parse_number (neg : bool) (l : list ascii) : option spec_float :=
  let '(ip, l2) := span_digits l in
  let '(fp, l3) :=
    match l2 with
    | "."%char :: r => span_digits r
    | _ => ([], l2)
    end in
  match ip ++ fp with
  | [] => None
  | ds =>
      let m := digits_value ds in
      let scale := - Z.of_nat (length fp) in
      match l3 with
      | [] => Some (of_decimal neg m scale)
      | c :: r =>
          if Ascii.eqb c "e" || Ascii.eqb c "E"
          then
            let '(eneg, r1) := take_sign r in
            match span_digits r1 with
            | ((_ :: _) as ed, []) =>
                let x := Z.of_N (digits_value ed) in
                Some (of_decimal neg m ((if eneg then - x else x) + scale))
            | _ => None
            end
          else None
      end
  end.

Definition of_string (s : string) : result spec_float :=
  match drop_underscores None (strip (list_ascii_of_string s)) with
  | None => Raise ValueError
  | Some l =>
      let '(neg, body) := take_sign l in
      let word := PyStr.lower (string_of_list_ascii body) in
      if String.eqb word "inf" || String.eqb word "infinity"
      then Ok (S754_infinity neg)
      else if String.eqb word "nan" then Ok S754_nan
      else match parse_number neg body with
           | Some f => Ok f
           | None => Raise ValueError
           end
  end.

(** *** [repr(f)]: the shortest decimal that reads back as [f] *)

Definition ratio (m : positive) (e : Z) : Z * Z :=
  if 0 <=? e then (Zpos m * 2 ^ e, 1) else (Zpos m, 2 ^ (- e)).

Definition ndigits (n : Z) : Z := Z.of_nat (String.length (PyStr.of_Z n)).

Fixpoint first_scale (fuel : nat) (num den j : Z) : Z :=
  match fuel with
  | O => j
  | S fuel' =>
      if den <=? num * 10 ^ j then j else first_scale fuel' num den (j + 1)
  end.

(** [decpt num den] is the [d] with [10^(d-1) <= num/den < 10^d]; a
    positive binary64 is at least [2^-1074], so the search for a value
    below one ends within 400 steps. *)
Definition decpt (num den : Z) : Z :=
  if den <=? num then ndigits (num / den)
  else 1 - first_scale 400 num den 1.

(** The candidates with [n] significant digits: the two neighbours of
    [num/den] on the grid of step [10^k]. *)
Definition candidate (f : spec_float) (num den : Z) (n : Z) : option (Z * Z) :=
  let k := decpt num den - n in
  let '(a, b) := if k <=? 0 then (num * 10 ^ (- k), den) else (num, den * 10 ^ k) in
  let lo := a / b in
  let r := a mod b in
  let back d := same (of_decimal false (Z.to_N d) k) f in
  if r =? 0 then Some (lo, k)
  else match back lo, back (lo + 1) with
       | true, true =>
           Some (if 2 * r <? b then lo
                 else if b <? 2 * r then lo + 1
                 else if Z.even lo then lo else lo + 1, k)
       | true, false => Some (lo, k)
       | false, true => Some (lo + 1, k)
       | false, false => None
       end.

Fixpoint shortest (fuel : nat) (f : spec_float) (num den n : Z) : Z * Z :=
  match fuel with
  | O => (num / den, 0)
  | S fuel' =>
      match candidate f num den n with
      | Some c => c
      | None => shortest fuel' f num den (n + 1)
      end
  end.

Fixpoint strip_zeros (rev_digits : list ascii) : list ascii :=
  match rev_digits with
  | "0"%char :: l => strip_zeros l
  | l => l
  end.

Definition zeros (n : Z) : string :=
  string_of_list_ascii (repeat "0"%char (Z.to_nat n)).

Definition two_digits (n : Z) : string :=
  if n <? 10 then String "0" (PyStr.of_Z n) else PyStr.of_Z n.

Definition format_digits (d k : Z) : string :=
  let all := list_ascii_of_string (PyStr.of_Z d) in
  let ds := rev (strip_zeros (rev all)) in
  let nd := Z.of_nat (length ds) in
  let dp := k + Z.of_nat (length all) in
  if (dp <=? -4) || (16 <? dp)
  then
    let mant :=
      match ds with
      | [] => EmptyString
      | c :: [] => String c EmptyString
      | c :: rest => String c (String "." (string_of_list_ascii rest))
      end in
    let x := dp - 1 in
    let sign : string := if x <? 0 then "-" else "+" in
    (mant ++ "e" ++ sign ++ two_digits (Z.abs x))%string
  else if dp <=? 0
  then ("0." ++ zeros (- dp) ++ string_of_list_ascii ds)%string
  else if nd <=? dp
  then (string_of_list_ascii ds ++ zeros (dp - nd) ++ ".0")%string
  else (string_of_list_ascii (firstn (Z.to_nat dp) ds) ++ "." ++
        string_of_list_ascii (skipn (Z.to_nat dp) ds))%string.

(** A [spec_float] stands for a binary64 when its mantissa and exponent are
    the canonical ones; any other is read as the binary64 nearest to it. *)
Definition canonical (f : spec_float) : spec_float :=
  match f with
  | S754_finite s m e => binary_round prec emax s m e
  | _ => f
  end.

Definition repr (f : spec_float) : string :=
  match canonical f with
  | S754_nan => "nan"
  | S754_infinity s => if s then "-inf" else "inf"
  | S754_zero s => if s then "-0.0" else "0.0"
  | S754_finite s m e =>
      let '(num, den) := ratio m e in
      let '(d, k) := shortest 17 (S754_finite false m e) num den 1 in
      let sign : string := if s then "-" else "" in
      (sign ++ format_digits d k)%string
  end.

End PyFloat.

(** ** JSON values as the interpreter holds them *)

#[local] Set Warnings "-register-all".

Inductive value : Type :=
| VNone
| VBool (b : bool)
| VInt (n : Z)
| VFloat (f : spec_float)
| VStr (s : string)
| VList (items : list value)
| VDict (entries : list (string * value)).

(** Truth value of an object: [None], [False], zero, and the empty string,
    list and dict are false. *)
Definition truthy (v : value) : bool :=
  match v with
  | VNone => false
  | VBool b => b
  | VInt n => negb (n =? 0)
  | VFloat f => negb (PyFloat.is_zero f)
  | VStr s => negb (String.eqb s "")
  | VList items => match items with [] => false | _ => true end
  | VDict entries => match entries with [] => false | _ => true end
  end.

(** [a or b] *)
Definition py_or (a b : value) : value := if truthy a then a else b.

(** [d.get(k)] on the entries of a dict: [None] when the key is absent. *)
Fixpoint dict_get (entries : list (string * value)) (k : string) : value :=
  match entries with
  | [] => VNone
  | (k', v) :: rest => if String.eqb k' k then v else dict_get rest k
  end.

(** [x.get(k)]: only a dict has the method. *)
Definition get (x : value) (k : string) : result value :=
  match x with
  | VDict entries => Ok (dict_get entries k)
  | _ => Raise AttributeError
  end.

(** [repr(v)] and [str(v)]; they differ on a [str] only. *)
Fixpoint py_repr (v : value) : string :=
  match v with
  | VNone => "None"
  | VBool b => if b then "True" else "False"
  | VInt n => PyStr.of_Z n
  | VFloat f => PyFloat.repr f
  | VStr s => PyStr.repr s
  | VList items =>
      ("[" ++ PyStr.join ", " (map py_repr items) ++ "]")%string
  | VDict entries =>
      ("{" ++ PyStr.join ", "
                (map (fun kv => (PyStr.repr (fst kv) ++ ": " ++ py_repr (snd kv))%string)
                     entries) ++ "}")%string
  end.

Definition py_str (v : value) : string :=
  match v with
  | VStr s => s
  | _ => py_repr v
  end.

(** *** Numbers compared across [bool], [int] and [float] *)

Inductive number : Type :=
| NFinite (m e : Z)           (* m * 2^e *)
| NInfinite (neg : bool)
| NNaN.

Definition number_of (v : value) : option number :=
  match v with
  | VBool b => Some (NFinite (if b then 1 else 0) 0)
  | VInt n => Some (NFinite n 0)
  | VFloat (S754_zero _) => Some (NFinite 0 0)
  | VFloat (S754_finite s m e) => Some (NFinite (if s then Zneg m else Zpos m) e)
  | VFloat (S754_infinity s) => Some (NInfinite s)
  | VFloat S754_nan => Some NNaN
  | _ => None
  end.

(** Comparison of two numbers; [None] when one of them is a NaN. *)
Definition number_compare (a b : number) : option comparison :=
  match a, b with
  | NNaN, _ | _, NNaN => None
  | NInfinite s, NInfinite t =>
      Some (if s then (if t then Eq else Lt) else (if t then Gt else Eq))
  | NInfinite s, NFinite _ _ => Some (if s then Lt else Gt)
  | NFinite _ _, NInfinite t => Some (if t then Gt else Lt)
  | NFinite m e, NFinite n d =>
      let c := Z.min e d in
      Some (Z.compare (m * 2 ^ (e - c)) (n * 2 ^ (d - c)))
  end.

(** Pointwise and lexicographic comparison of two lists, and the test of
    the binding of a key, over the comparison of the elements. *)
Section Comparisons.
Context {A : Type} (eq : A -> A -> bool) (lt : A -> A -> result bool).

Fixpoint all2 (xs ys : list A) : bool :=
  match xs, ys with
  | [], [] => true
  | x :: xs', y :: ys' => eq x y && all2 xs' ys'
  | _, _ => false
  end.

Fixpoint lex (xs ys : list A) : result bool :=
  match xs, ys with
  | [], [] => Ok false
  | [], _ :: _ => Ok true
  | _ :: _, [] => Ok false
  | x :: xs', y :: ys' => if eq x y then lex xs' ys' else lt x y
  end.

Fixpoint binding_is (test : A -> bool) (k : string) (d : list (string * A)) : bool :=
  match d with
  | [] => false
  | (k', v) :: rest => if String.eqb k' k then test v else binding_is test k rest
  end.
End Comparisons.

(** The items of a list and the values of a dict are compared as the
    interpreter compares the items of a container: two items that are the
    same object are equal without [==] being asked.  Among the values
    decoded from JSON this matters for NaN alone, which is one object
    however often it is read and which [==] does not find equal to
    itself. *)
Definition is_nan (v : value) : bool :=
  match v with
  | VFloat S754_nan => true
  | _ => false
  end.

Definition same_or (eq : value -> value -> bool) (a b : value) : bool :=
  is_nan a && is_nan b || eq a b.

(** [a == b]: numbers by value, strings and lists pointwise, dicts as
    mappings (the same keys, bound to equal values, in any order). *)
Fixpoint py_eq (a b : value) : bool :=
  match a, b with
  | VNone, VNone => true
  | VStr s, VStr t => String.eqb s t
  | VList xs, VList ys => all2 (same_or py_eq) xs ys
  | VDict d, VDict d' =>
      (length d =? length d')%nat &&
      forallb (fun kv => let '(k, v) := kv in
                         binding_is (fun v' => same_or py_eq v v') k d') d &&
      forallb (fun kv' => let '(k', v') := kv' in
                          binding_is (fun v => same_or py_eq v v') k' d) d'
  | _, _ =>
      match number_of a, number_of b with
      | Some x, Some y =>
          match number_compare x y with Some Eq => true | _ => false end
      | _, _ => false
      end
  end.

(** [a < b]: defined between two strings, two numbers and two lists;
    anything else raises.  Two lists are compared at the first place where
    their items differ. *)
Fixpoint py_lt (a b : value) : result bool :=
  match a, b with
  | VStr s, VStr t => Ok (PyStr.ltb s t)
  | VList xs, VList ys => lex (same_or py_eq) py_lt xs ys
  | _, _ =>
      match number_of a, number_of b with
      | Some x, Some y =>
          Ok (match number_compare x y with Some Lt => true | _ => false end)
      | _, _ => Raise TypeError
      end
  end.

(** [float(v)] *)
Definition py_float (v : value) : result spec_float :=
  match v with
  | VBool b => PyFloat.of_Z (if b then 1 else 0)
  | VInt n => PyFloat.of_Z n
  | VFloat f => Ok f
  | VStr s => PyFloat.of_string s
  | VNone | VList _ | VDict _ => Raise TypeError
  end.

(** *** Hashable values as set elements

    A set holds one element per class of [==]: [True], [1] and [1.0] are
    the same element.  A finite number is kept as an odd mantissa and an
    exponent.  Lists and dicts are not hashable. *)

Inductive hkey : Type :=
| KNone
| KStr (s : string)
| KNum (m e : Z)
| KInf (neg : bool)
| KNaN.

Fixpoint odd_part (m : positive) (e : Z) : positive * Z :=
  match m with
  | xO m' => odd_part m' (e + 1)
  | _ => (m, e)
  end.

Definition knum (m e : Z) : hkey :=
  match m with
  | Z0 => KNum 0 0
  | Zpos p => let '(q, d) := odd_part p e in KNum (Zpos q) d
  | Zneg p => let '(q, d) := odd_part p e in KNum (Zneg q) d
  end.

Definition hash_key (v : value) : result hkey :=
  match v with
  | VNone => Ok KNone
  | VStr s => Ok (KStr s)
  | VList _ | VDict _ => Raise TypeError
  | _ =>
      match number_of v with
      | Some (NFinite m e) => Ok (knum m e)
      | Some (NInfinite s) => Ok (KInf s)
      | _ => Ok KNaN
      end
  end.

#[global] Instance hkey_eq_dec : EqDecision hkey.
Proof. solve_decision. Defined.

#[global] Instance hkey_countable : Countable hkey.
Proof.
  refine (inj_countable'
            (fun k => match k with
                      | KNone => inl (inl tt)
                      | KStr s => inl (inr s)
                      | KNum m e => inr (inl (m, e))
                      | KInf s => inr (inr (Some s))
                      | KNaN => inr (inr None)
                      end)
            (fun x => match x with
                      | inl (inl tt) => KNone
                      | inl (inr s) => KStr s
                      | inr (inl (m, e)) => KNum m e
                      | inr (inr (Some s)) => KInf s
                      | inr (inr None) => KNaN
                      end) _).
  intros []; reflexivity.
Defined.

(** ** The program *)

(** *** Tunables and constants (lines 11-54) *)

Record config : Type := {
  DAYS_SINCE : Z;
  ROUND_LIMIT_PER_CALL : Z;
  MAX_COMPANY_LOOKUPS : Z
}.

(** The values taken when the environment sets none of them. *)
Definition default_config : config :=
  {| DAYS_SINCE := 1; ROUND_LIMIT_PER_CALL := 50; MAX_COMPANY_LOOKUPS := 20 |}.

Definition CRUNCHBASE_TRAVEL_LABEL : string := "hospitality, travel and tourism".

Definition TRAVEL_KEYWORDS : gset string :=
  list_to_set
    [ (* Core sectors *)
      "hospitality"; "travel"; "tourism";
      (* Lodging & stays *)
      "hotel"; "lodging"; "resort"; "vacation rental"; "short term rental";
      "hostel"; "bnb"; "bed and breakfast";
      (* Booking & platforms *)
      "ota"; "booking"; "expedia"; "tripadvisor";
      (* Transport modes (traveler-facing only) *)
      "airline"; "airport"; "cruise"; "ferry"; "rideshare";
      (* Travel services *)
      "tour operator"; "tourism board"; "travel agency" ]%string.

(** *** What a run takes from outside (lines 80-85, 116, 210)

    [http_get] either returns the decoded body or raises.  The listing is
    requested once per run; [company_info n q] is the outcome of the
    company request sent with query [q] after [n] earlier ones.

    [arrangement keys] is what the interpreter's [list.sort] makes of a
    list of three or more items whose keys [<] does not order (see
    [sort_reverse]): an exception, or the place each item in turn takes
    among the items before it. *)

Record upstream : Type := {
  funding_rounds : Z -> Z -> result value;
  company_info : nat -> value -> result value;
  arrangement : list value -> result (list nat)
}.

(** *** Helpers (lines 88-161) *)

Definition norm_item (item : value) : string :=
  match item with
  | VStr s => s
  | VDict d => py_str (py_or (py_or (dict_get d "name") (dict_get d "value")) item)
  | _ => py_str item
  end.

Definition norm_list_to_strings (val : value) : list string :=
  if negb (truthy val) then []
  else match val with
       | VStr s => [s]
       | VList items => map norm_item items
       | _ => [py_str val]
       end.

(** [list.sort(key=..., reverse=True)] on items paired with their keys.

    The interpreter compares keys with [<] and nothing else.  Where [<]
    orders the keys of the list (no comparison of two of them raises, and
    [not_above] is total and transitive on them) the list comes out in
    descending order of the keys, items whose keys are equivalent in the
    order they had: it is reversed, sorted upwards by stable insertion and
    reversed again.  On two items the interpreter makes one comparison (is
    the key of the first below the key of the second?) and an exception of
    it ends the sort; the same computation does just that.

    On three or more items whose keys [<] does not order, the sort still
    compares every key with some other key, in a chain that links them
    all.  So when two keys are of different kinds (a number and a text,
    say), or one is of a kind that has no order ([None], a dict), a
    comparison that raises [TypeError] is made, and it ends the sort.
    Otherwise (a NaN among numbers, lists that disagree) the outcome
    depends on the pairs the interpreter's merge sort happens to compare,
    which differ from one version of the interpreter to the next.  The
    language fixes only that the list is left a permutation of itself, or
    that an exception gets out; which one is asked of [arrangement]. *)

Inductive kind : Type :=
| Number
| Text
| Sequence
| Unordered.

Definition kind_of (v : value) : kind :=
  match v with
  | VBool _ | VInt _ | VFloat _ => Number
  | VStr _ => Text
  | VList _ => Sequence
  | VNone | VDict _ => Unordered
  end.

Definition same_kind (a b : value) : bool :=
  match kind_of a, kind_of b with
  | Number, Number | Text, Text | Sequence, Sequence => true
  | _, _ => false
  end.

(** Some two keys are of different kinds or of a kind without order. *)
Definition clashing_keys (keys : list value) : bool :=
  existsb (fun a => existsb (fun b => negb (same_kind a b)) keys) keys.

(** Neither does the comparison raise, nor is [b < a]. *)
Definition not_above (a b : value) : bool :=
  match py_lt b a with
  | Ok false => true
  | _ => false
  end.

Definition compares (a b : value) : bool :=
  match py_lt a b with
  | Ok _ => true
  | Raise _ => false
  end.

Definition ordered_keys (keys : list value) : bool :=
  forallb (fun a =>
    forallb (fun b =>
      compares a b && (not_above a b || not_above b a) &&
      forallb (fun c => implb (not_above a b && not_above b c) (not_above a c)) keys)
      keys)
    keys.

Section Sort.
Context {A : Type}.

Fixpoint insert_sorted (x : value * A) (l : list (value * A))
  : result (list (value * A)) :=
  match l with
  | [] => Ok [x]
  | y :: l' =>
      let* below := py_lt (fst x) (fst y) in
      if below then Ok (x :: y :: l')
      else let* r := insert_sorted x l' in Ok (y :: r)
  end.

Fixpoint sort_ascending (done todo : list (value * A))
  : result (list (value * A)) :=
  match todo with
  | [] => Ok done
  | x :: todo' =>
      let* done' := insert_sorted x done in sort_ascending done' todo'
  end.

(** The items, each put in turn at its place among the ones before it (a
    place past the end is the end). *)
Definition insert_at (n : nat) (x : A) (l : list A) : list A :=
  firstn n l ++ x :: skipn n l.

Fixpoint arrange (places : list nat) (items acc : list A) : list A :=
  match items with
  | [] => acc
  | x :: items' => arrange (tl places) items' (insert_at (hd 0%nat places) x acc)
  end.

Definition sort_reverse (longer : list value -> result (list nat))
           (keyed : list (value * A)) : result (list A) :=
  if (length keyed <=? 2)%nat || ordered_keys (map fst keyed)
  then let* sorted := sort_ascending [] (rev keyed) in
       Ok (rev (map snd sorted))
  else if clashing_keys (map fst keyed) then Raise TypeError
  else let* places := longer (map fst keyed) in
       Ok (arrange places (map snd keyed) []).
End Sort.

Fixpoint sort_keys (items : list value) : result (list (value * value)) :=
  match items with
  | [] => Ok []
  | x :: rest =>
      let* d := get x "announced_on" in
      let* keyed := sort_keys rest in
      Ok ((py_or d (VStr ""), x) :: keyed)
  end.

Definition fetch_recent_rounds (cfg : config) (up : upstream) (days_since : Z)
  : result (list value) :=
  let* data := funding_rounds up days_since (ROUND_LIMIT_PER_CALL cfg) in
  match data with
  | VDict d =>
      let items :=
        py_or (py_or (py_or (dict_get d "results") (dict_get d "data"))
                     (dict_get d "items"))
              (VList []) in
      match items with
      | VList l => let* keyed := sort_keys l in sort_reverse (arrangement up) keyed
      | _ => Raise AttributeError
      end
  | _ => Raise AttributeError
  end.

Definition uuid_fields : list string :=
  [ "funded_organization_identifier"; "funded_organization_uuid";
    "organization_uuid"; "company_uuid" ]%string.

Fixpoint extract_from (rd : list (string * value)) (fields : list string) : value :=
  match fields with
  | [] => VStr ""
  | k :: fields' =>
      match dict_get rd k with
      | VStr s => if negb (String.eqb s "") then VStr s else extract_from rd fields'
      | VDict d =>
          if truthy (dict_get d "uuid") then dict_get d "uuid"
          else extract_from rd fields'
      | _ => extract_from rd fields'
      end
  end.

Definition extract_company_uuid (rd : value) : result value :=
  match rd with
  | VDict entries => Ok (extract_from entries uuid_fields)
  | _ => Raise AttributeError
  end.

Definition get_company (up : upstream) (sent : nat) (query_value : value)
  : result value :=
  let* data := company_info up sent query_value in
  match data with
  | VDict d =>
      if truthy (dict_get d "name") then Ok data
      else match dict_get d "data" with
           | VList (first :: _) => Ok first
           | _ => Ok (VDict [])
           end
  | _ => Ok (VDict [])
  end.

Definition list_fields : list string := ["categories"; "industries"; "tags"]%string.

Definition profile_fields : list string :=
  ["categories"; "industries"; "tags"; "short_description"; "description"]%string.

Fixpoint hay_of (co : list (string * value)) (fields : list string) : list string :=
  match fields with
  | [] => []
  | k :: fields' =>
      let v := dict_get co k in
      if negb (truthy v) then hay_of co fields'
      else if existsb (String.eqb k) list_fields
      then map PyStr.lower (norm_list_to_strings v) ++ hay_of co fields'
      else PyStr.lower (py_str v) :: hay_of co fields'
  end.

Definition blob_of (co : list (string * value)) : string :=
  PyStr.join " | " (hay_of co profile_fields).

(** The classifier over a keyword set; the program uses [TRAVEL_KEYWORDS]. *)
Definition is_travel_with (keywords : gset string) (co : value) : result bool :=
  match co with
  | VDict entries =>
      let blob := blob_of entries in
      if PyStr.contains CRUNCHBASE_TRAVEL_LABEL blob then Ok true
      else Ok (bool_decide
                 (set_Exists (fun term => PyStr.contains term blob = true) keywords))
  | _ => Raise AttributeError
  end.

Definition is_travel_company (co : value) : result bool :=
  is_travel_with TRAVEL_KEYWORDS co.

Definition amount_value (rd : list (string * value)) : value :=
  let money := py_or (dict_get rd "money_raised_usd") (dict_get rd "money_raised") in
  match money with
  | VDict m => py_or (dict_get m "value_usd") (dict_get m "value")
  | _ => money
  end.

Definition safe_amount (rd : value) : result string :=
  match rd with
  | VDict entries =>
      match (let* f := py_float (amount_value entries) in PyFloat.to_Z f) with
      | Ok n => Ok (String "$" (PyStr.format_grouped n))
      | Raise _ => Ok "Undisclosed"%string
      end
  | _ => Raise AttributeError
  end.

(** *** Core flow (lines 164-211) *)

Record row : Type := {
  announced_on : value;
  investment_type : value;
  amount_usd : string;
  company_name : value;
  website : value;
  location : value;
  categories : string;
  crunchbase_url : value;
  description : value
}.

(** The loop variables, and [issued]: the queries of the company lookups
    sent so far, oldest first. *)
Record state : Type := {
  picked : list row;
  seen : gset hkey;
  lookups : Z;
  issued : list value
}.

Definition initial : state :=
  {| picked := []; seen := ∅; lookups := 0; issued := [] |}.

Definition make_row (rd co : list (string * value)) (amount : string) : row :=
  {| announced_on := dict_get rd "announced_on";
     investment_type := dict_get rd "investment_type";
     amount_usd := amount;
     company_name := dict_get co "name";
     website := py_or (py_or (dict_get co "website") (dict_get co "homepage_url")) (VStr "");
     location :=
       py_or (py_or (py_or (dict_get co "location") (dict_get co "country"))
                    (dict_get co "country_code"))
             (VStr "");
     categories :=
       PyStr.join ", "
         (match norm_list_to_strings (dict_get co "categories") with
          | [] => norm_list_to_strings (dict_get co "industries")
          | l => l
          end);
     crunchbase_url := py_or (py_or (dict_get co "permalink") (dict_get co "cb_url")) (VStr "");
     description :=
       py_or (py_or (dict_get co "short_description") (dict_get co "description")) (VStr "") |}.

(** The stop test at the head of every iteration. *)
Definition stop (cfg : config) (st : state) : bool :=
  (2 <=? Z.of_nat (length (picked st))) || (MAX_COMPANY_LOOKUPS cfg <=? lookups st).

(** One iteration past the stop test.  The state returned is the one the
    iteration leaves behind, together with the exception that ended it, if
    any. *)
Definition body (up : upstream) (rd : value) (st : state) : state * option exn :=
  match extract_company_uuid rd with
  | Raise e => (st, Some e)
  | Ok uuid =>
      if negb (truthy uuid) then (st, None)
      else
        match hash_key uuid with
        | Raise e => (st, Some e)
        | Ok k =>
            if bool_decide (k ∈ seen st) then (st, None)
            else
              let st1 :=
                {| picked := picked st; seen := {[ k ]} ∪ seen st;
                   lookups := lookups st; issued := issued st ++ [uuid] |} in
              match get_company up (length (issued st)) uuid with
              | Raise e => (st1, Some e)
              | Ok co =>
                  let st2 :=
                    {| picked := picked st1; seen := seen st1;
                       lookups := lookups st1 + 1; issued := issued st1 |} in
                  if negb (truthy co) then (st2, None)
                  else
                    match is_travel_company co with
                    | Raise e => (st2, Some e)
                    | Ok false => (st2, None)
                    | Ok true =>
                        match rd, co, safe_amount rd with
                        | VDict r, VDict c, Ok amount =>
                            ({| picked := picked st2 ++ [make_row r c amount];
                                seen := seen st2; lookups := lookups st2;
                                issued := issued st2 |}, None)
                        | _, _, _ => (st2, Some AttributeError)
                        end
                    end
              end
        end
  end.

Fixpoint loop (cfg : config) (up : upstream) (rounds : list value) (st : state)
  : state * option exn :=
  match rounds with
  | [] => (st, None)
  | rd :: rest =>
      if stop cfg st then (st, None)
      else match body up rd st with
           | (st', None) => loop cfg up rest st'
           | (st', Some e) => (st', Some e)
           end
  end.

(** The run up to the end of the loop. *)
Definition run (cfg : config) (up : upstream) : state * option exn :=
  match fetch_recent_rounds cfg up (DAYS_SINCE cfg) with
  | Raise e => (initial, Some e)
  | Ok rounds => loop cfg up rounds initial
  end.

Definition sort_key (r : row) : value := py_or (announced_on r) (VStr "").

Definition pick_two_latest_travel (cfg : config) (up : upstream) : result (list row) :=
  match run cfg up with
  | (st, None) =>
      sort_reverse (arrangement up) (map (fun r => (sort_key r, r)) (picked st))
  | (_, Some e) => Raise e
  end.

(** * What the properties are stated with *)

(** ** Occurrence of a text in another *)

(** [needle] occurs in [hay]. *)
Definition occurs (needle hay : string) : Prop :=
  exists pre post, hay = (pre ++ needle ++ post)%string.

(** [needle] occurs in [text] when letter case is ignored. *)
Definition occurs_ignoring_case (needle text : string) : Prop :=
  exists pre mid post,
    text = (pre ++ mid ++ post)%string /\ PyStr.lower mid = needle.

(** ** The normalizer as the specification words it

    [toStringList]: absent or empty input gives the empty list, a bare
    string a one-element list, a list of strings passes through, an object
    gives its "name" field, else its "value" field, else its textual form,
    and any other scalar gives its textual form in a one-element list. *)

Definition absent_or_empty (v : value) : bool :=
  match v with
  | VNone | VStr EmptyString | VList [] | VDict [] => true
  | _ => false
  end.

Definition has_field (d : list (string * value)) (k : string) : bool :=
  existsb (String.eqb k) (map fst d).

Definition to_string_list_item (item : value) : string :=
  match item with
  | VStr s => s
  | VDict d =>
      if has_field d "name" then py_str (dict_get d "name")
      else if has_field d "value" then py_str (dict_get d "value")
      else py_str item
  | _ => py_str item
  end.

Definition to_string_list (v : value) : list string :=
  if absent_or_empty v then []
  else match v with
       | VStr s => [s]
       | VList items => map to_string_list_item items
       | _ => [py_str v]
       end.

(** The field an object is rendered from: the first of "name" and
    "value" that holds a true value, else the object itself. *)
Definition rendered_field (d : list (string * value)) : value :=
  if truthy (dict_get d "name") then dict_get d "name"
  else if truthy (dict_get d "value") then dict_get d "value"
  else VDict d.

(** ** The text the classifier searches, as the specification words it

    The normalized contents of the category, industry and tag fields, then
    the raw text of the short and the long description, joined with a
    separator. *)

Definition present_text (v : value) : list string :=
  if truthy v then [py_str v] else [].

Definition field_texts (co : list (string * value)) : list string :=
  norm_list_to_strings (dict_get co "categories") ++
  norm_list_to_strings (dict_get co "industries") ++
  norm_list_to_strings (dict_get co "tags") ++
  present_text (dict_get co "short_description") ++
  present_text (dict_get co "description").

Definition search_text (co : list (string * value)) : string :=
  PyStr.join " | " (field_texts co).

(** ** The Glossary's keyword list

    The domain terms the Glossary lists.  Its entry "named OTA brands"
    names no term and is left out. *)

Definition glossary_terms : list string :=
  [ "hospitality"; "travel"; "tourism"; "hotel"; "lodging"; "resort";
    "vacation rental"; "short-term rental"; "hostel"; "bed-and-breakfast";
    "online travel agency"; "booking"; "airline"; "airport"; "cruise";
    "ferry"; "rideshare"; "tour operator"; "tourism board";
    "travel agency" ]%string.

Fixpoint unhyphenated (s : string) : string :=
  match s with
  | EmptyString => EmptyString
  | String c s' => String (if Ascii.eqb c "-" then " "%char else c) (unhyphenated s')
  end.

(** ** Amounts made whole *)

(** The exact value of a finite binary64, as a fraction. *)
Definition exact_value (f : spec_float) : option (Z * Z) :=
  match f with
  | S754_zero _ => Some (0, 1)
  | S754_finite s m e =>
      let '(n, d) := PyFloat.ratio m e in Some (if s then - n else n, d)
  | _ => None
  end.

(** The whole number nearest to [n/d], and [n/d] without its fraction. *)
Definition nearest (n d : Z) : Z := (2 * n + d) / (2 * d).

Definition toward_zero (n d : Z) : Z := Z.quot n d.

(** The rendering of an amount under a rule that makes it whole: a
    dollar sign and the grouped digits when the amount reads as a finite
    number, the marker otherwise. *)
Definition render_amount (whole : Z -> Z -> Z) (v : value) : string :=
  match py_float v with
  | Ok f =>
      match exact_value f with
      | Some (n, d) => String "$" (PyStr.format_grouped (whole n d))
      | None => "Undisclosed"
      end
  | Raise _ => "Undisclosed"
  end.

(** ** Invariants of the loop *)

(** The set of seen identifiers holds exactly the identifiers of the
    lookups issued so far. *)
Definition seen_issued (st : state) : Prop :=
  forall k, k ∈ seen st <-> exists q, In q (issued st) /\ hash_key q = Ok k.

(** What holds of the state whenever control is at the head of the loop
    ([o = None]) or an exception has just ended the run. *)
Definition bounded (cfg : config) (st : state) (o : option exn) : Prop :=
  Z.of_nat (length (picked st)) <= 2 /\
  0 <= lookups st <= Z.max 0 (MAX_COMPANY_LOOKUPS cfg) /\
  Z.of_nat (length (issued st)) <= Z.max 0 (MAX_COMPANY_LOOKUPS cfg) /\
  (o = None -> Z.of_nat (length (issued st)) = lookups st) /\
  seen_issued st.

(** The two bounds of a run: records accepted, and lookups counted and
    issued. *)
Definition within_bounds (cfg : config) (st : state) : Prop :=
  Z.of_nat (length (picked st)) <= 2 /\
  lookups st <= MAX_COMPANY_LOOKUPS cfg /\
  Z.of_nat (length (issued st)) <= MAX_COMPANY_LOOKUPS cfg.

(** ** The order of the records returned *)

(** No record comes before a record with a strictly later date. *)
Definition descending (rows : list row) : Prop :=
  forall (i j : nat) (ri rj : row),
    (i < j)%nat -> rows !! i = Some ri -> rows !! j = Some rj ->
    py_lt (sort_key ri) (sort_key rj) = Ok false.

(** [rows] holds the records of [acc], and two of them change places only
    when the one accepted first has the strictly earlier date: records
    with the same date stay in the order of acceptance. *)
Definition order_kept (acc rows : list row) : Prop :=
  Permutation acc rows /\
  forall (i j : nat) (ri rj : row),
    (i < j)%nat -> acc !! i = Some ri -> acc !! j = Some rj ->
    py_lt (sort_key ri) (sort_key rj) = Ok false ->
    exists i' j', (i' < j')%nat /\ rows !! i' = Some ri /\ rows !! j' = Some rj.

(** After a record without a date only records without a date follow. *)
Definition missing_last (rows : list row) : Prop :=
  forall (i j : nat) (ri rj : row),
    (i < j)%nat -> rows !! i = Some ri -> rows !! j = Some rj ->
    truthy (announced_on ri) = false -> truthy (announced_on rj) = false.

(** ** Sample upstreams *)

(** A listing served with a fixed body. *)
(** An interpreter that leaves as it found it a list it cannot order. *)
Definition left_in_place (keys : list value) : result (list nat) :=
  Ok (seq 0 (length keys)).

Definition serving (body : value) : upstream :=
  {| funding_rounds := fun _ _ => Ok body;
     company_info := fun _ _ => Raise HTTPError;
     arrangement := left_in_place |}.

Definition sample_round (id date amount : string) : value :=
  VDict [ ("announced_on", VStr date);
          ("investment_type", VStr "series_a");
          ("funded_organization_identifier", VDict [("uuid", VStr id)]);
          ("money_raised", VDict [("value_usd", VStr amount)]) ]%string.

(** Five rounds of which the first and the third resolve to travel
    companies; the second repeats the identifier of the first and the
    fourth carries none. *)
Definition sample_listing : value :=
  VDict [ ("results",
           VList [ sample_round "inn" "2024-05-03" "1500000.0";
                   sample_round "inn" "2024-05-03" "250000";
                   sample_round "sail" "2024-05-02" "";
                   VDict [("announced_on", VStr "2024-05-02")];
                   sample_round "bank" "2024-05-01" "9000000" ]) ]%string.

(** Two rounds, the undated one served first. *)
Definition undated_listing : value :=
  VDict [ ("data",
           VList [ VDict [("company_uuid", VStr "sail")];
                   sample_round "inn" "2024-05-03" "7.5e5" ]) ]%string.

Definition sample_company (q : value) : result value :=
  match q with
  | VStr "inn" =>
      Ok (VDict [ ("name", VStr "Inn Co");
                  ("categories", VList [VDict [("name", VStr "Hotel")]]) ])%string
  | VStr "sail" =>
      Ok (VDict [ ("data",
                   VList [VDict [ ("name", VStr "Sail Ltd");
                                  ("description", VStr "Ferry lines") ]]) ])%string
  | _ => Ok (VDict [("name", VStr "Bank AG")])%string
  end.

Definition sample_upstream : upstream :=
  {| funding_rounds := fun _ _ => Ok sample_listing;
     company_info := fun _ q => sample_company q;
     arrangement := left_in_place |}.

Definition undated_upstream : upstream :=
  {| funding_rounds := fun _ _ => Ok undated_listing;
     company_info := fun _ q => sample_company q;
     arrangement := left_in_place |}.

(** * Properties *)

(** ** Strings: occurrence, case folding, joining *)

Section StringFacts.
Local Open Scope string_scope.

Lemma append_cons (c : ascii) (a b : string) :
  String c a ++ b = String c (a ++ b).
Proof. reflexivity. Qed.

Lemma append_empty (b : string) : "" ++ b = b.
Proof. reflexivity. Qed.

Lemma append_nil_r (s : string) : s ++ "" = s.
Proof.
  induction s as [|c s IH]; [reflexivity|].
  now rewrite append_cons, IH.
Qed.

Lemma append_assoc (a b c : string) : (a ++ b) ++ c = a ++ b ++ c.
Proof.
  induction a as [|x a IH]; [reflexivity|].
  now rewrite !append_cons, IH.
Qed.

Lemma prefix_spec (n h : string) :
  String.prefix n h = true <-> exists post, h = n ++ post.
Proof.
  revert h. induction n as [|c n IH]; intros h.
  - split; [intros _; exists h; reflexivity | destruct h; reflexivity].
  - destruct h as [|d h]; simpl.
    + split; [discriminate | intros [post H]; discriminate].
    + destruct (ascii_dec c d) as [->|Hne].
      * rewrite IH. split; intros [post H]; exists post;
          rewrite append_cons in *; congruence.
      * split; [discriminate|].
        intros [post H]. rewrite append_cons in H. congruence.
Qed.

Lemma contains_spec (n h : string) :
  PyStr.contains n h = true <-> occurs n h.
Proof.
  unfold occurs. induction h as [|c h IH].
  - cbn [PyStr.contains]. rewrite orb_false_r, prefix_spec.
    split.
    + intros [post H]. exists "", post. exact H.
    + intros [[|x pre] [post H]]; [exists post; exact H | discriminate].
  - cbn [PyStr.contains]. rewrite orb_true_iff, prefix_spec, IH.
    split.
    + intros [[post H] | [pre [post H]]].
      * exists "", post. exact H.
      * exists (String c pre), post. rewrite append_cons. congruence.
    + intros [[|x pre] [post H]].
      * left. exists post. exact H.
      * right. exists pre, post. rewrite append_cons in H. congruence.
Qed.

Lemma lower_append (a b : string) :
  PyStr.lower (a ++ b) = PyStr.lower a ++ PyStr.lower b.
Proof.
  induction a as [|c a IH]; [reflexivity|].
  rewrite append_cons. simpl. now rewrite append_cons, IH.
Qed.

Lemma lower_split (t a b : string) :
  PyStr.lower t = a ++ b ->
  exists t1 t2, t = t1 ++ t2 /\ PyStr.lower t1 = a /\ PyStr.lower t2 = b.
Proof.
  revert t. induction a as [|c a IH]; intros t H.
  - exists "", t. auto.
  - destruct t as [|d t]; [discriminate|].
    rewrite append_cons in H. simpl in H. injection H as Hc Ht.
    destruct (IH _ Ht) as (t1 & t2 & -> & H1 & H2).
    exists (String d t1), t2. simpl. rewrite H1, Hc. auto.
Qed.

Lemma occurs_lower (n t : string) :
  occurs n (PyStr.lower t) <-> occurs_ignoring_case n t.
Proof.
  split.
  - intros (pre & post & H).
    destruct (lower_split _ _ _ H) as (t1 & r & -> & _ & Hr).
    destruct (lower_split _ _ _ Hr) as (mid & t3 & -> & Hmid & _).
    exists t1, mid, t3. auto.
  - intros (pre & mid & post & -> & <-).
    exists (PyStr.lower pre), (PyStr.lower post).
    now rewrite !lower_append.
Qed.

Lemma join_cons2 (sep p q : string) (parts : list string) :
  PyStr.join sep (p :: q :: parts) = p ++ sep ++ PyStr.join sep (q :: parts).
Proof. reflexivity. Qed.

Lemma lower_join (sep : string) (parts : list string) :
  PyStr.lower sep = sep ->
  PyStr.lower (PyStr.join sep parts) = PyStr.join sep (map PyStr.lower parts).
Proof.
  intros Hsep.
  induction parts as [|p parts IH]; [reflexivity|].
  destruct parts as [|q parts]; [reflexivity|].
  rewrite join_cons2. cbn [map] in *. rewrite join_cons2.
  now rewrite !lower_append, Hsep, IH.
Qed.
End StringFacts.

(** ** The normalizer *)

Lemma norm_item_str (l : list string) : map norm_item (map VStr l) = l.
Proof.
  induction l as [|s l IH]; [reflexivity|].
  simpl. now rewrite IH.
Qed.

Lemma norm_item_dict (d : list (string * value)) :
  norm_item (VDict d) = py_str (rendered_field d).
Proof.
  unfold norm_item, rendered_field, py_or.
  destruct (truthy (dict_get d "name")) eqn:Hn.
  - now rewrite Hn.
  - now destruct (truthy (dict_get d "value")) eqn:Hv; rewrite ?Hv.
Qed.

Lemma norm_of_strings (l : list string) :
  norm_list_to_strings (VList (map VStr l)) = l.
Proof.
  destruct l as [|s l]; [reflexivity|].
  unfold norm_list_to_strings. cbn [map truthy negb].
  change (norm_item (VStr s)) with s. f_equal. apply norm_item_str.
Qed.

(** C4 (as stated, refuted): the scalar [0] is neither absent nor empty, and
    the specification's rule sends it to the one-element list ["0"], while
    [norm_list_to_strings] answers the empty list. *)
Lemma norm_list_to_strings_zero :
  norm_list_to_strings (VInt 0) = [] /\
  to_string_list (VInt 0) = ["0"%string] /\
  norm_list_to_strings (VInt 0) <> to_string_list (VInt 0).
Proof. repeat split; try reflexivity. discriminate. Qed.

(** C4 (amended): [norm_list_to_strings] is total and returns the empty
    list for every false value ([None], [False], zero, the empty string,
    list and dict); a one-element list for a non-empty string; the same list
    for a list of strings; for a list of objects, per object the textual
    form of the first true value among its "name" field, its "value" field
    and the object itself; one string per element for any list; and for any
    other true value its textual form in a one-element list. *)
Theorem norm_list_to_strings_cases (v : value) :
  (truthy v = false -> norm_list_to_strings v = []) /\
  (forall s, v = VStr s -> truthy v = true -> norm_list_to_strings v = [s]) /\
  (forall l, v = VList (map VStr l) -> norm_list_to_strings v = l) /\
  (forall ds, v = VList (map VDict ds) ->
     norm_list_to_strings v = map (fun d => py_str (rendered_field d)) ds) /\
  (forall items, v = VList items ->
     length (norm_list_to_strings v) = length items) /\
  (truthy v = true ->
     match v with
     | VStr _ | VList _ => True
     | _ => norm_list_to_strings v = [py_str v]
     end).
Proof.
  repeat split.
  - intros H. unfold norm_list_to_strings. now rewrite H.
  - intros s -> H. unfold norm_list_to_strings. now rewrite H.
  - intros l ->. apply norm_of_strings.
  - intros ds ->. unfold norm_list_to_strings.
    destruct ds as [|d ds]; [reflexivity|].
    cbn [map truthy negb]. f_equal; [apply norm_item_dict|].
    induction ds as [|d' ds IH]; [reflexivity|].
    cbn [map]. f_equal; [apply norm_item_dict | exact IH].
  - intros items ->. unfold norm_list_to_strings.
    destruct items as [|x items]; [reflexivity|].
    cbn [truthy negb]. now rewrite length_map.
  - intros H. unfold norm_list_to_strings.
    destruct v; try exact I; now rewrite H.
Qed.

Lemma norm_list_to_strings_cases_witness :
  norm_list_to_strings (VInt 7) = ["7"%string].
Proof.
  apply (proj2 (proj2 (proj2 (proj2 (proj2 (norm_list_to_strings_cases (VInt 7))))))).
  reflexivity.
Defined.

(** C10: the normalizer is idempotent: applied to its own output (a list
    of strings) it returns that output unchanged. *)
Theorem norm_list_to_strings_idempotent (v : value) :
  norm_list_to_strings (VList (map VStr (norm_list_to_strings v))) =
  norm_list_to_strings v.
Proof. apply norm_of_strings. Qed.

(** ** The classifier *)

Lemma norm_falsy (v : value) : truthy v = false -> norm_list_to_strings v = [].
Proof. intros H. unfold norm_list_to_strings. now rewrite H. Qed.

Lemma hay_of_field_texts (co : list (string * value)) :
  hay_of co profile_fields = map PyStr.lower (field_texts co).
Proof.
  unfold field_texts, present_text, profile_fields.
  rewrite !map_app. cbn [hay_of existsb list_fields String.eqb Ascii.eqb Bool.eqb orb].
  destruct (truthy (dict_get co "categories")) eqn:H1;
    destruct (truthy (dict_get co "industries")) eqn:H2;
    destruct (truthy (dict_get co "tags")) eqn:H3;
    destruct (truthy (dict_get co "short_description")) eqn:H4;
    destruct (truthy (dict_get co "description")) eqn:H5;
    cbn [negb map app];
    rewrite ?(norm_falsy _ H1), ?(norm_falsy _ H2), ?(norm_falsy _ H3);
    reflexivity.
Qed.

Lemma blob_of_search_text (co : list (string * value)) :
  blob_of co = PyStr.lower (search_text co).
Proof.
  unfold blob_of, search_text.
  rewrite hay_of_field_texts. symmetry. now apply lower_join.
Qed.

Lemma is_travel_with_true (K : gset string) (co : list (string * value)) :
  is_travel_with K (VDict co) = Ok true <->
  PyStr.contains CRUNCHBASE_TRAVEL_LABEL (blob_of co) = true \/
  exists term, term ∈ K /\ PyStr.contains term (blob_of co) = true.
Proof.
  unfold is_travel_with.
  destruct (PyStr.contains CRUNCHBASE_TRAVEL_LABEL (blob_of co)) eqn:Hl.
  - split; [now left | reflexivity].
  - split.
    + intros H. right. injection H as H.
      apply bool_decide_eq_true in H. exact H.
    + intros [H | H]; [discriminate|].
      f_equal. apply bool_decide_eq_true. exact H.
Qed.

(** C6: for every company profile the classifier answers, and it answers
    true exactly when the search text (normalized category, industry and
    tag fields, raw short and long descriptions, joined with a separator)
    holds the label "hospitality, travel and tourism" or some keyword of
    the fixed set as a substring once letter case is ignored; no word
    boundary is looked at. *)
Theorem is_travel_company_iff (co : list (string * value)) :
  exists b,
    is_travel_company (VDict co) = Ok b /\
    (b = true <->
     occurs_ignoring_case CRUNCHBASE_TRAVEL_LABEL (search_text co) \/
     exists term, term ∈ TRAVEL_KEYWORDS /\
                  occurs_ignoring_case term (search_text co)).
Proof.
  assert (Hiff := is_travel_with_true TRAVEL_KEYWORDS co).
  rewrite blob_of_search_text in Hiff.
  setoid_rewrite contains_spec in Hiff.
  setoid_rewrite occurs_lower in Hiff.
  fold (is_travel_company (VDict co)) in Hiff.
  assert (Hret : exists b, is_travel_company (VDict co) = Ok b).
  { unfold is_travel_company, is_travel_with.
    destruct (PyStr.contains _ _); eauto. }
  destruct Hret as [b Hb]. exists b. split; [exact Hb|].
  rewrite <- Hiff, Hb. split; congruence.
Qed.

(** The substring match has no word boundary: "rotary" holds "ota". *)
Example is_travel_company_rotary :
  is_travel_company (VDict [("description"%string, VStr "Rotary engines")]) = Ok true.
Proof. vm_compute. reflexivity. Qed.

(** C8: the classifier is monotonic in its keyword set: a profile
    accepted with the keywords [K] is accepted with every superset of
    [K]. *)
Theorem is_travel_with_monotone (K K' : gset string) (co : value) :
  K ⊆ K' ->
  is_travel_with K co = Ok true ->
  is_travel_with K' co = Ok true.
Proof.
  intros Hsub H. destruct co; try discriminate H.
  apply is_travel_with_true. apply is_travel_with_true in H.
  destruct H as [H | (term & Hin & H)]; [now left|].
  right. exists term. split; [set_solver | exact H].
Qed.

Lemma is_travel_with_monotone_witness :
  is_travel_with TRAVEL_KEYWORDS
    (VDict [("description"%string, VStr "A Grand Hotel")]) = Ok true.
Proof.
  apply (is_travel_with_monotone {[ "hotel"%string ]}).
  - apply (bool_decide_unpack _). vm_compute. exact I.
  - vm_compute. reflexivity.
Defined.

(** Adding a keyword can turn a rejection into an acceptance. *)
Example is_travel_with_gains :
  is_travel_with ∅ (VDict [("tags"%string, VStr "Glamping")]) = Ok false /\
  is_travel_with {[ "glamping"%string ]} (VDict [("tags"%string, VStr "Glamping")]) = Ok true.
Proof. split; vm_compute; reflexivity. Qed.

(** ** The keyword set *)

(** C7 (as stated, refuted): the Glossary term "short-term rental" is not
    a keyword of the program, whose keyword "bnb" is not a Glossary term;
    a profile described by the Glossary term alone is rejected. *)
Lemma travel_keywords_differ_from_glossary :
  In "short-term rental"%string glossary_terms /\
  ("short-term rental"%string ∉ TRAVEL_KEYWORDS) /\
  ("bnb"%string ∈ TRAVEL_KEYWORDS) /\
  ~ In "bnb"%string glossary_terms /\
  is_travel_company
    (VDict [("description"%string, VStr "Short-term rental marketplace")]) = Ok false.
Proof.
  split; [apply (bool_decide_unpack _); vm_compute; exact I|].
  split; [apply (bool_decide_unpack _); vm_compute; exact I|].
  split; [apply (bool_decide_unpack _); vm_compute; exact I|].
  split; [apply (bool_decide_unpack _); vm_compute; exact I|].
  vm_compute. reflexivity.
Qed.

(** C7 (amended): the keyword set consists exactly of 23 literals: the
    Glossary's terms with each hyphen written as a space, "online travel
    agency" apart, which is present only as the abbreviation "ota"; the two
    brands "expedia" and "tripadvisor"; and the abbreviation "bnb". *)
Theorem travel_keywords_exact :
  TRAVEL_KEYWORDS =
    (list_to_set
       (map unhyphenated
          (filter (fun t => t <> "online travel agency"%string) glossary_terms))
     ∪ {[ "ota"; "expedia"; "tripadvisor"; "bnb" ]}%string) /\
  size TRAVEL_KEYWORDS = 23%nat /\
  (forall s : string,
     s ∈ TRAVEL_KEYWORDS <->
     In s [ "hospitality"; "travel"; "tourism"; "hotel"; "lodging"; "resort";
            "vacation rental"; "short term rental"; "hostel"; "bnb";
            "bed and breakfast"; "ota"; "booking"; "expedia"; "tripadvisor";
            "airline"; "airport"; "cruise"; "ferry"; "rideshare";
            "tour operator"; "tourism board"; "travel agency" ]%string).
Proof.
  split; [apply (bool_decide_unpack _); vm_compute; exact I|].
  split; [vm_compute; reflexivity|].
  intros s. unfold TRAVEL_KEYWORDS.
  rewrite elem_of_list_to_set. apply list_elem_of_In.
Qed.

(** ** The listing request *)

Lemma dict_get_absent (d : list (string * value)) (k : string) :
  has_field d k = false -> dict_get d k = VNone.
Proof.
  unfold has_field. induction d as [|[k' v] d IH]; [reflexivity|].
  cbn [map fst existsb dict_get]. rewrite String.eqb_sym.
  destruct (String.eqb k' k); [discriminate | exact IH].
Qed.

Lemma fetch_recent_rounds_falsy (cfg : config) (up : upstream) (days : Z)
      (d : list (string * value)) :
  funding_rounds up days (ROUND_LIMIT_PER_CALL cfg) = Ok (VDict d) ->
  truthy (dict_get d "results") = false ->
  truthy (dict_get d "data") = false ->
  truthy (dict_get d "items") = false ->
  fetch_recent_rounds cfg up days = Ok [].
Proof.
  intros Hbody H1 H2 H3. unfold fetch_recent_rounds, py_or.
  rewrite Hbody. cbn [bind]. now rewrite H1, H2, H3.
Qed.

(** C9 (as stated, refuted): a body that lacks "results" and "data" and
    wraps one round under "items" gives that round, not the empty sequence;
    and no two keys are such that a body lacking both always gives the
    empty sequence: whichever two are named, a body that lacks them and
    wraps its rounds under a third key gives those rounds. *)
Lemma fetch_recent_rounds_not_two_keys :
  (has_field [("items"%string, VList [VDict [("announced_on"%string, VStr "2024-05-03")]])]
             "results" = false /\
   has_field [("items"%string, VList [VDict [("announced_on"%string, VStr "2024-05-03")]])]
             "data" = false /\
   fetch_recent_rounds default_config
     (serving (VDict [("items"%string,
                       VList [VDict [("announced_on"%string, VStr "2024-05-03")]])])) 1
   = Ok [VDict [("announced_on"%string, VStr "2024-05-03")]]) /\
  ~ exists k1 k2 : string,
      forall (up : upstream) (d : list (string * value)),
        funding_rounds up 1 50 = Ok (VDict d) ->
        has_field d k1 = false ->
        has_field d k2 = false ->
        fetch_recent_rounds default_config up 1 = Ok [].
Proof.
  split; [repeat split; vm_compute; reflexivity|].
  intros (k1 & k2 & H).
  pose (body k := [(k, VList [VDict []])] : list (string * value)).
  assert (Hk : forall k, has_field (body k) k1 = false ->
                         has_field (body k) k2 = false ->
                         fetch_recent_rounds default_config (serving (VDict (body k))) 1 = Ok [])
    by (intros k; apply H; reflexivity).
  unfold has_field, body in Hk. cbn [map fst existsb] in Hk.
  destruct (String.eqb_spec k1 "results") as [->|N1].
  - destruct (String.eqb_spec k2 "data") as [->|N2].
    + specialize (Hk "items"%string eq_refl eq_refl). discriminate Hk.
    + specialize (Hk "data"%string eq_refl).
      rewrite (proj2 (String.eqb_neq _ _) N2) in Hk.
      specialize (Hk eq_refl). discriminate Hk.
  - destruct (String.eqb_spec k2 "results") as [->|N2].
    + destruct (String.eqb_spec k1 "data") as [->|N3].
      * specialize (Hk "items"%string eq_refl eq_refl). discriminate Hk.
      * specialize (Hk "data"%string).
        rewrite (proj2 (String.eqb_neq _ _) N3) in Hk.
        specialize (Hk eq_refl eq_refl). discriminate Hk.
    + specialize (Hk "results"%string).
      rewrite (proj2 (String.eqb_neq _ _) N1), (proj2 (String.eqb_neq _ _) N2) in Hk.
      specialize (Hk eq_refl eq_refl). discriminate Hk.
Qed.

(** C9 (amended): there are three list-wrapping keys, "results", "data"
    and "items"; when the listing request succeeds with a JSON object that
    lacks all three, [fetch_recent_rounds] returns the empty sequence of
    rounds and does not fail. *)
Theorem fetch_recent_rounds_no_wrapper (cfg : config) (up : upstream) (days : Z)
        (d : list (string * value)) :
  funding_rounds up days (ROUND_LIMIT_PER_CALL cfg) = Ok (VDict d) ->
  has_field d "results" = false ->
  has_field d "data" = false ->
  has_field d "items" = false ->
  fetch_recent_rounds cfg up days = Ok [].
Proof.
  intros Hbody H1 H2 H3.
  apply (fetch_recent_rounds_falsy cfg up days d Hbody);
    now rewrite dict_get_absent.
Qed.

Lemma fetch_recent_rounds_no_wrapper_witness :
  fetch_recent_rounds default_config
    (serving (VDict [("count"%string, VInt 0)])) 1 = Ok [].
Proof.
  apply (fetch_recent_rounds_no_wrapper default_config
           (serving (VDict [("count"%string, VInt 0)])) 1
           [("count"%string, VInt 0)]); reflexivity.
Defined.

(** ** The amount formatter *)

Lemma to_Z_toward_zero (f : spec_float) :
  PyFloat.to_Z f =
  match exact_value f with
  | Some (n, d) => Ok (toward_zero n d)
  | None => PyFloat.to_Z f
  end.
Proof.
  destruct f as [s|s| |s m e]; try reflexivity.
  unfold exact_value, PyFloat.to_Z, PyFloat.ratio, PyFloat.magnitude_floor, toward_zero.
  destruct (0 <=? e) eqn:He.
  - destruct s; f_equal; [rewrite Z.quot_opp_l by lia|]; now rewrite Z.quot_1_r.
  - assert (0 < 2 ^ (- e)) by (apply Z.pow_pos_nonneg; lia).
    destruct s; f_equal.
    + rewrite Z.quot_opp_l by lia. now rewrite Z.quot_div_nonneg by lia.
    + now rewrite Z.quot_div_nonneg by lia.
Qed.

Lemma to_Z_raises (f : spec_float) :
  exact_value f = None -> exists e, PyFloat.to_Z f = Raise e.
Proof.
  destruct f as [s|s| |s m e]; simpl; try discriminate; eauto.
  destruct (PyFloat.ratio m e). discriminate.
Qed.

Lemma string_length_append (a b : string) :
  String.length (a ++ b) = (String.length a + String.length b)%nat.
Proof.
  induction a as [|c a IH]; [reflexivity|].
  rewrite append_cons. simpl. now rewrite IH.
Qed.

(** Up to three digits are left as they are; a longer run of digits is
    its last three digits, a comma before them, and before it the
    grouping of the digits that come first. *)
Lemma commas_short (s : string) :
  (String.length s <= 3)%nat -> PyStr.commas s = s.
Proof.
  destruct s as [|a [|b [|c [|d s]]]]; simpl; intros H; try reflexivity; lia.
Qed.

Lemma commas_step (a b : string) :
  a <> EmptyString -> String.length b = 3%nat ->
  PyStr.commas (a ++ b) = (PyStr.commas a ++ "," ++ b)%string.
Proof.
  intros Ha Hb. induction a as [|c a IH]; [congruence|].
  rewrite append_cons. cbn [PyStr.commas].
  rewrite string_length_append, Hb.
  destruct a as [|c' a].
  - rewrite append_empty. cbn [String.length Nat.add].
    change ((negb (3 =? 0) && (3 mod 3 =? 0))%nat) with true. cbn iota.
    rewrite commas_short by lia. reflexivity.
  - rewrite IH by discriminate.
    set (n := String.length (String c' a)).
    assert (Hn : n <> 0%nat) by (subst n; simpl; lia).
    replace ((n + 3) mod 3)%nat with (n mod 3)%nat
      by (rewrite <- (Nat.Div0.mod_add n 1 3); f_equal; lia).
    replace (negb (n + 3 =? 0)%nat) with true
      by (symmetry; apply negb_true_iff, Nat.eqb_neq; lia).
    replace (negb (n =? 0)%nat) with true
      by (symmetry; apply negb_true_iff, Nat.eqb_neq; lia).
    cbn [andb].
    destruct (n mod 3 =? 0)%nat; now rewrite !append_cons.
Qed.

(** C5 (as stated, refuted): an amount of 1500000.75 is rendered
    "$1,500,000"; rounded to the nearest whole unit it would be
    "$1,500,001". *)
Lemma safe_amount_not_nearest :
  let rd := [("money_raised_usd"%string, VStr "1500000.75")] in
  safe_amount (VDict rd) = Ok "$1,500,000"%string /\
  render_amount nearest (amount_value rd) = "$1,500,001"%string /\
  safe_amount (VDict rd) <> Ok (render_amount nearest (amount_value rd)).
Proof.
  assert (H1 : safe_amount (VDict [("money_raised_usd"%string, VStr "1500000.75")])
               = Ok "$1,500,000"%string) by (vm_compute; reflexivity).
  assert (H2 : render_amount nearest
                 (amount_value [("money_raised_usd"%string, VStr "1500000.75")])
               = "$1,500,001"%string) by (vm_compute; reflexivity).
  cbv zeta. rewrite H1, H2. repeat split. discriminate.
Qed.

(** C5 (amended): for every round, [safe_amount] drops the fraction of the
    amount (it truncates toward zero, it does not round to the nearest
    whole unit), groups the digits in threes with commas and puts a "$" in
    front; a missing amount, or one that does not read as a finite number,
    gives the literal "Undisclosed" and no numeric default; the amount
    "1500000.0" is rendered "$1,500,000". *)
Theorem safe_amount_truncates (rd : list (string * value)) :
  safe_amount (VDict rd) = Ok (render_amount toward_zero (amount_value rd)) /\
  (safe_amount (VDict rd) = Ok "Undisclosed"%string <->
   match py_float (amount_value rd) with
   | Ok f => exact_value f = None
   | Raise _ => True
   end) /\
  safe_amount (VDict [("money_raised_usd"%string, VStr "1500000.0")])
    = Ok "$1,500,000"%string /\
  safe_amount (VDict []) = Ok "Undisclosed"%string.
Proof.
  assert (Heq : safe_amount (VDict rd)
                = Ok (render_amount toward_zero (amount_value rd))).
  { unfold safe_amount, render_amount.
    destruct (py_float (amount_value rd)) as [f|e]; [|reflexivity].
    cbn [bind]. rewrite to_Z_toward_zero.
    destruct (exact_value f) as [[n d]|] eqn:Hv; [reflexivity|].
    destruct (to_Z_raises f Hv) as [e ->]. reflexivity. }
  split; [exact Heq|]. split.
  - rewrite Heq. unfold render_amount.
    destruct (py_float (amount_value rd)) as [f|e]; [|tauto].
    destruct (exact_value f) as [[n d]|]; [|tauto].
    split; discriminate.
  - split; vm_compute; reflexivity.
Qed.

(** ** The selection loop *)

Lemma bounded_initial (cfg : config) : bounded cfg initial None.
Proof.
  unfold bounded, seen_issued. cbn.
  split; [lia|]. split; [lia|]. split; [lia|]. split; [reflexivity|].
  intros k. split.
  - intros H. set_solver.
  - intros (q & [] & _).
Qed.

Lemma seen_issued_add (st : state) (uuid : value) (k : hkey) (p : list row) (n : Z) :
  hash_key uuid = Ok k -> seen_issued st ->
  seen_issued {| picked := p; seen := {[ k ]} ∪ seen st; lookups := n;
                 issued := issued st ++ [uuid] |}.
Proof.
  unfold seen_issued. intros Hk Hs k'. cbn.
  rewrite elem_of_union, elem_of_singleton, Hs. split.
  - intros [-> | (q & Hq & Hh)].
    + exists uuid. split; [apply in_or_app; right; now left | exact Hk].
    + exists q. split; [apply in_or_app; now left | exact Hh].
  - intros (q & Hq & Hh). apply in_app_or in Hq as [Hq | [<- | []]].
    + right. now exists q.
    + left. congruence.
Qed.

Ltac solve_bounded :=
  unfold bounded; cbn [picked seen lookups issued];
  rewrite ?length_app; cbn [length];
  split; [lia|]; split; [lia|]; split; [lia|];
  split; [first [discriminate | intros _; lia] | auto].

Lemma body_bounded (cfg : config) (up : upstream) (rd : value) (st st' : state)
      (o : option exn) :
  bounded cfg st None -> stop cfg st = false ->
  body up rd st = (st', o) -> bounded cfg st' o.
Proof.
  intros (Hp & Hl & Hi & He & Hs) Hstop Hbody.
  specialize (He eq_refl).
  unfold stop in Hstop. apply orb_false_iff in Hstop as [Hp2 Hcap].
  apply Z.leb_gt in Hp2. apply Z.leb_gt in Hcap.
  assert (Hsame : forall o', bounded cfg st o') by (intros o'; solve_bounded).
  unfold body in Hbody.
  destruct (extract_company_uuid rd) as [uuid|e];
    [|injection Hbody as <- <-; apply Hsame].
  destruct (negb (truthy uuid)); [injection Hbody as <- <-; apply Hsame|].
  destruct (hash_key uuid) as [k|e] eqn:Hk;
    [|injection Hbody as <- <-; apply Hsame].
  destruct (bool_decide (k ∈ seen st)); [injection Hbody as <- <-; apply Hsame|].
  assert (Hseen := fun p n => seen_issued_add st uuid k p n Hk Hs).
  destruct (get_company up (length (issued st)) uuid) as [co|e];
    [|injection Hbody as <- <-; solve_bounded].
  cbn [picked seen lookups issued] in Hbody.
  destruct (negb (truthy co)); [injection Hbody as <- <-; solve_bounded|].
  destruct (is_travel_company co) as [[|]|e];
    [| injection Hbody as <- <-; solve_bounded
     | injection Hbody as <- <-; solve_bounded].
  destruct rd; try (injection Hbody as <- <-; solve_bounded).
  destruct co; try (injection Hbody as <- <-; solve_bounded).
  destruct (safe_amount _); injection Hbody as <- <-; solve_bounded.
Qed.

Lemma loop_bounded (cfg : config) (up : upstream) (rounds : list value)
      (st st' : state) (o : option exn) :
  bounded cfg st None -> loop cfg up rounds st = (st', o) -> bounded cfg st' o.
Proof.
  revert st. induction rounds as [|rd rest IH]; intros st Hb Hloop; cbn in Hloop.
  - now injection Hloop as <- <-.
  - destruct (stop cfg st) eqn:Hstop; [now injection Hloop as <- <-|].
    destruct (body up rd st) as [st1 [e|]] eqn:Hbody.
    + injection Hloop as <- <-. eapply body_bounded; eauto.
    + eapply IH; [|exact Hloop]. eapply body_bounded; eauto.
Qed.

Lemma run_bounded (cfg : config) (up : upstream) :
  bounded cfg (fst (run cfg up)) (snd (run cfg up)).
Proof.
  unfold run. destruct (fetch_recent_rounds cfg up (DAYS_SINCE cfg)) as [rounds|e].
  - destruct (loop cfg up rounds initial) as [st o] eqn:Hloop.
    eapply loop_bounded; [apply bounded_initial | exact Hloop].
  - cbn [fst snd]. destruct (bounded_initial cfg) as (H1 & H2 & H3 & H4 & H5).
    unfold bounded. auto 10.
Qed.

(** Once the stop test holds, the rest of the input is not looked at. *)
Lemma loop_stop (cfg : config) (up : upstream) (rest : list value) (st : state) :
  stop cfg st = true -> loop cfg up rest st = (st, None).
Proof. intros H. destruct rest; cbn; [reflexivity | now rewrite H]. Qed.

(** *** The final sort *)

Lemma insert_sorted_perm {A : Type} (x : value * A) (l r : list (value * A)) :
  insert_sorted x l = Ok r -> Permutation (x :: l) r.
Proof.
  revert r. induction l as [|y l IH]; intros r H; cbn in H.
  - injection H as <-. reflexivity.
  - destruct (py_lt (fst x) (fst y)) as [[|]|e]; cbn in H; try discriminate.
    + injection H as <-. reflexivity.
    + destruct (insert_sorted x l) as [r'|e]; cbn in H; [|discriminate].
      injection H as <-. rewrite perm_swap. constructor. now apply IH.
Qed.

Lemma sort_ascending_perm {A : Type} (done todo r : list (value * A)) :
  sort_ascending done todo = Ok r -> Permutation (done ++ todo) r.
Proof.
  revert done r. induction todo as [|x todo IH]; intros done r H; cbn in H.
  - injection H as <-. now rewrite app_nil_r.
  - destruct (insert_sorted x done) as [done'|e] eqn:Hi; cbn in H; [|discriminate].
    apply IH in H. rewrite <- H.
    apply insert_sorted_perm in Hi. rewrite <- Hi.
    symmetry. apply Permutation_middle.
Qed.

Lemma insert_at_perm {A : Type} (n : nat) (x : A) (l : list A) :
  Permutation (x :: l) (insert_at n x l).
Proof.
  unfold insert_at. rewrite <- Permutation_middle.
  now rewrite firstn_skipn.
Qed.

Lemma arrange_perm {A : Type} (places : list nat) (items acc : list A) :
  Permutation (acc ++ items) (arrange places items acc).
Proof.
  revert places acc. induction items as [|x items IH]; intros places acc; cbn.
  - now rewrite app_nil_r.
  - rewrite <- IH, <- insert_at_perm. symmetry. apply Permutation_middle.
Qed.

Lemma sort_reverse_perm {A : Type} (longer : list value -> result (list nat))
      (keyed : list (value * A)) (r : list A) :
  sort_reverse longer keyed = Ok r -> Permutation (map snd keyed) r.
Proof.
  unfold sort_reverse. intros H.
  destruct ((length keyed <=? 2)%nat || ordered_keys (map fst keyed)).
  - destruct (sort_ascending [] (rev keyed)) as [sorted|e] eqn:Hs; cbn in H; [|discriminate].
    injection H as <-. apply sort_ascending_perm in Hs. cbn in Hs.
    rewrite <- Permutation_rev, <- Hs, <- Permutation_rev. reflexivity.
  - destruct (clashing_keys (map fst keyed)); [discriminate|].
    destruct (longer (map fst keyed)) as [places|e]; cbn in H; [|discriminate].
    injection H as <-. apply (arrange_perm places (map snd keyed) []).
Qed.

Lemma picked_rows (cfg : config) (up : upstream) (rows : list row) :
  pick_two_latest_travel cfg up = Ok rows ->
  snd (run cfg up) = None /\
  sort_reverse (arrangement up)
    (map (fun r => (sort_key r, r)) (picked (fst (run cfg up)))) = Ok rows.
Proof.
  unfold pick_two_latest_travel.
  destruct (run cfg up) as [st [e|]]; [discriminate|]. auto.
Qed.

(** C1: in every run, whatever the rounds and the answers of the upstream
    API, at most two records are accepted and at most
    [MAX_COMPANY_LOOKUPS] lookups are counted and issued, also when the run
    ends on an exception; and as soon as either bound is reached the loop
    ends there, whatever input remains. *)
Theorem pick_two_latest_travel_bounds (cfg : config) (up : upstream) :
  0 <= MAX_COMPANY_LOOKUPS cfg ->
  (forall rounds, within_bounds cfg (fst (loop cfg up rounds initial))) /\
  within_bounds cfg (fst (run cfg up)) /\
  (forall rows, pick_two_latest_travel cfg up = Ok rows ->
                (length rows <= 2)%nat) /\
  (forall st rest,
     (2 <= Z.of_nat (length (picked st)) \/ MAX_COMPANY_LOOKUPS cfg <= lookups st) ->
     loop cfg up rest st = (st, None)).
Proof.
  intros Hcap.
  assert (Hin : forall st o, bounded cfg st o -> within_bounds cfg st).
  { intros st o (Hp & Hl & Hi & _ & _). unfold within_bounds. lia. }
  split; [|split; [|split]].
  - intros rounds. destruct (loop cfg up rounds initial) as [st o] eqn:Hloop.
    apply (Hin st o). eapply loop_bounded; [apply bounded_initial | exact Hloop].
  - eapply Hin, run_bounded.
  - intros rows Hrows. apply picked_rows in Hrows as [_ Hsort].
    apply sort_reverse_perm, Permutation_length in Hsort.
    rewrite length_map, length_map in Hsort.
    destruct (run_bounded cfg up) as (Hp & _). lia.
  - intros st rest H. apply loop_stop. unfold stop.
    apply orb_true_iff. rewrite !Z.leb_le. exact H.
Qed.

Lemma pick_two_latest_travel_bounds_witness :
  (forall rounds,
     within_bounds default_config (fst (loop default_config sample_upstream rounds initial))) /\
  within_bounds default_config (fst (run default_config sample_upstream)) /\
  (forall rows, pick_two_latest_travel default_config sample_upstream = Ok rows ->
                (length rows <= 2)%nat) /\
  (forall st rest,
     (2 <= Z.of_nat (length (picked st)) \/ 20 <= lookups st) ->
     loop default_config sample_upstream rest st = (st, None)).
Proof.
  apply (pick_two_latest_travel_bounds default_config sample_upstream).
  cbn. lia.
Defined.

(** The sample run: two lookups, two records, the repeated and the
    missing identifier skipped, the last round never looked at. *)
Example sample_run :
  map company_name (picked (fst (run default_config sample_upstream)))
    = [VStr "Inn Co"; VStr "Sail Ltd"] /\
  map amount_usd (picked (fst (run default_config sample_upstream)))
    = ["$1,500,000"; "Undisclosed"]%string /\
  issued (fst (run default_config sample_upstream)) = [VStr "inn"; VStr "sail"] /\
  lookups (fst (run default_config sample_upstream)) = 2 /\
  snd (run default_config sample_upstream) = None.
Proof. repeat split; vm_compute; reflexivity. Qed.

(** With a cap of one the loop ends after one lookup, short of two
    records. *)
Example sample_run_cap_one :
  let cfg := {| DAYS_SINCE := 1; ROUND_LIMIT_PER_CALL := 50; MAX_COMPANY_LOOKUPS := 1 |} in
  option_map (map company_name)
    (match pick_two_latest_travel cfg sample_upstream with
     | Ok rows => Some rows
     | Raise _ => None
     end) = Some [VStr "Inn Co"] /\
  issued (fst (run cfg sample_upstream)) = [VStr "inn"].
Proof. split; vm_compute; reflexivity. Qed.

(** C2: a round whose identifier is empty, or has been seen earlier in the
    same run, leaves the whole state as it was: no lookup is issued for it
    and the lookup counter is unchanged, so the loop goes on as if the
    round were not there; the set of seen identifiers is scoped to the run:
    it starts empty and holds exactly the identifiers of the lookups issued
    in this run. *)
Theorem skipped_round_no_lookup (cfg : config) (up : upstream) :
  (forall (rd : value) (st : state) (uuid : value),
     extract_company_uuid rd = Ok uuid ->
     (truthy uuid = false \/ exists k, hash_key uuid = Ok k /\ k ∈ seen st) ->
     body up rd st = (st, None) /\
     forall rest, loop cfg up (rd :: rest) st = loop cfg up rest st) /\
  seen initial = ∅ /\
  (forall k, k ∈ seen (fst (run cfg up)) <->
             exists q, In q (issued (fst (run cfg up))) /\ hash_key q = Ok k).
Proof.
  split; [|split; [reflexivity|]].
  - intros rd st uuid Hx Hskip.
    assert (Hbody : body up rd st = (st, None)).
    { unfold body. rewrite Hx.
      destruct Hskip as [Hf | (k & Hk & Hin)].
      - now rewrite Hf.
      - destruct (negb (truthy uuid)); [reflexivity|].
        rewrite Hk. now rewrite (bool_decide_eq_true_2 _ Hin). }
    split; [exact Hbody|].
    intros rest. cbn [loop]. rewrite Hbody.
    destruct (stop cfg st) eqn:Hstop; [|reflexivity].
    symmetry. now apply loop_stop.
  - apply (run_bounded cfg up).
Qed.

Lemma skipped_round_no_lookup_witness :
  body sample_upstream (sample_round "inn" "2024-05-03" "250000")
       {| picked := []; seen := {[ KStr "inn" ]}; lookups := 1; issued := [VStr "inn"] |}
  = ({| picked := []; seen := {[ KStr "inn" ]}; lookups := 1; issued := [VStr "inn"] |}, None).
Proof.
  apply (proj1 (skipped_round_no_lookup default_config sample_upstream)
           (sample_round "inn" "2024-05-03" "250000") _ (VStr "inn")).
  - reflexivity.
  - right. exists (KStr "inn"). split; [reflexivity|].
    apply (bool_decide_unpack _). vm_compute. exact I.
Defined.

(** *** Equality is symmetric and the order is asymmetric *)

Section ValueInduction.
Variable P : value -> Prop.
Hypothesis HNone : P VNone.
Hypothesis HBool : forall b, P (VBool b).
Hypothesis HInt : forall n, P (VInt n).
Hypothesis HFloat : forall f, P (VFloat f).
Hypothesis HStr : forall s, P (VStr s).
Hypothesis HList : forall items, Forall P items -> P (VList items).
Hypothesis HDict : forall entries, Forall (fun kv => P (snd kv)) entries -> P (VDict entries).

Lemma value_nested_ind : forall v, P v.
Proof.
  fix IH 1. intros [ |b|n|f|s|items|entries].
  - exact HNone.
  - apply HBool.
  - apply HInt.
  - apply HFloat.
  - apply HStr.
  - apply HList. induction items as [|x items IHl]; constructor; [apply IH | exact IHl].
  - apply HDict. induction entries as [|[k x] entries IHl]; constructor;
      [apply IH | exact IHl].
Qed.
End ValueInduction.

Lemma number_compare_antisym (x y : number) (c : comparison) :
  number_compare x y = Some c -> number_compare y x = Some (CompOpp c).
Proof.
  destruct x as [m e|s| ], y as [n d|t| ]; cbn; try discriminate;
    intros H; injection H as <-.
  - rewrite (Z.min_comm d e). now rewrite Z.compare_antisym.
  - now destruct t.
  - now destruct s.
  - now destruct s, t.
Qed.

Lemma numbers_eq_sym (a b : value) :
  match number_of a, number_of b with
  | Some x, Some y => match number_compare x y with Some Eq => true | _ => false end
  | _, _ => false
  end =
  match number_of b, number_of a with
  | Some x, Some y => match number_compare x y with Some Eq => true | _ => false end
  | _, _ => false
  end.
Proof.
  destruct (number_of a) as [x|], (number_of b) as [y|]; try reflexivity.
  destruct (number_compare x y) as [c|] eqn:Hc.
  - rewrite (number_compare_antisym _ _ _ Hc). now destruct c.
  - destruct (number_compare y x) as [c|] eqn:Hc'; [|reflexivity].
    rewrite (number_compare_antisym _ _ _ Hc') in Hc. discriminate.
Qed.

Lemma all2_sym {A : Type} (eq : A -> A -> bool) (xs ys : list A) :
  Forall (fun x => forall y, eq x y = eq y x) xs ->
  all2 eq xs ys = all2 eq ys xs.
Proof.
  intros H. revert ys. induction H as [|x xs Hx _ IH]; intros [|y ys]; cbn;
    try reflexivity.
  now rewrite Hx, IH.
Qed.

Lemma binding_is_ext {A : Type} (f g : A -> bool) (k : string) (d : list (string * A)) :
  Forall (fun kv => f (snd kv) = g (snd kv)) d ->
  binding_is f k d = binding_is g k d.
Proof.
  induction 1 as [|[k' v] d Hv _ IH]; cbn; [reflexivity|].
  destruct (String.eqb k' k); [exact Hv | exact IH].
Qed.

Lemma forallb_pointwise {A : Type} (f g : A -> bool) (l : list A) :
  (forall x, f x = g x) -> forallb f l = forallb g l.
Proof.
  intros H. induction l as [|x l IH]; [reflexivity|].
  cbn. now rewrite H, IH.
Qed.

Lemma same_or_sym (eq : value -> value -> bool) (x y : value) :
  eq x y = eq y x -> same_or eq x y = same_or eq y x.
Proof. intros H. unfold same_or. now rewrite H, andb_comm. Qed.

Lemma py_eq_sym (a b : value) : py_eq a b = py_eq b a.
Proof.
  revert b. induction a as [ |x|n|f|s|items IH|entries IH] using value_nested_ind;
    intros b; destruct b as [ |x'|n'|f'|s'|items'|entries'];
    cbn [py_eq]; try apply numbers_eq_sym.
  - reflexivity.
  - apply String.eqb_sym.
  - apply all2_sym.
    clear -IH. induction IH as [|x xs Hx _ IHxs]; constructor; [|exact IHxs].
    intros y. apply same_or_sym, Hx.
  - rewrite (Nat.eqb_sym (length entries) (length entries')).
    rewrite <- !andb_assoc. f_equal.
    rewrite andb_comm. f_equal.
    + apply forallb_pointwise. intros [k' v']. apply binding_is_ext.
      clear -IH. induction IH as [|[k v] d Hv _ IHd]; constructor;
        [apply same_or_sym, Hv | exact IHd].
    + clear -IH. induction IH as [|[k v] d Hv _ IHd]; [reflexivity|].
      cbn [forallb]. rewrite IHd. f_equal.
      apply binding_is_ext. clear -Hv.
      induction entries' as [|[k' v'] d' IHd']; constructor;
        [apply same_or_sym, Hv | exact IHd'].
Qed.

Lemma str_ltb_asym (s t : string) :
  PyStr.ltb s t = true -> PyStr.ltb t s = false.
Proof.
  unfold PyStr.ltb, String.ltb. rewrite (String.compare_antisym s t).
  destruct (String.compare t s); cbn; congruence.
Qed.

Lemma py_lt_asym (a b : value) : py_lt a b = Ok true -> py_lt b a = Ok false.
Proof.
  assert (Hnum : forall a b,
             match number_of a, number_of b with
             | Some x, Some y =>
                 Ok (match number_compare x y with Some Lt => true | _ => false end)
             | _, _ => Raise TypeError
             end = Ok true ->
             match number_of b, number_of a with
             | Some x, Some y =>
                 Ok (match number_compare x y with Some Lt => true | _ => false end)
             | _, _ => Raise TypeError
             end = Ok false).
  { clear. intros a b.
    destruct (number_of a) as [x|], (number_of b) as [y|]; try discriminate.
    destruct (number_compare x y) as [c|] eqn:Hc; [|discriminate].
    rewrite (number_compare_antisym _ _ _ Hc). now destruct c. }
  revert b. induction a as [ |x|n|f|s|items IH|entries IH] using value_nested_ind;
    intros b; destruct b as [ |x'|n'|f'|s'|items'|entries'];
    cbn [py_lt]; try apply Hnum.
  - intros H. injection H as H. f_equal. now apply str_ltb_asym.
  - revert items'. induction IH as [|x xs Hx _ IHxs]; intros [|y ys] H; cbn in *;
      try discriminate; try reflexivity.
    rewrite (same_or_sym py_eq y x (py_eq_sym y x)).
    destruct (same_or py_eq x y); [now apply IHxs | now apply Hx].
Qed.

(** *** The order of the records returned *)

Lemma sort_reverse_two {A : Type} (longer : list value -> result (list nat))
      (k1 k2 : value) (a b : A) :
  sort_reverse longer [(k1, a); (k2, b)] =
  let* below := py_lt k1 k2 in Ok (if below then [b; a] else [a; b]).
Proof.
  unfold sort_reverse. cbn.
  destruct (py_lt k1 k2) as [[|]|e]; reflexivity.
Qed.

Lemma sort_key_missing (r : row) :
  truthy (announced_on r) = false -> sort_key r = VStr "".
Proof. intros H. unfold sort_key, py_or. now rewrite H. Qed.

Lemma not_before_empty (k : value) :
  py_lt (VStr "") k = Ok false -> k = VStr "".
Proof.
  destruct k as [ | | | |s| | ]; try discriminate.
  destruct s; [reflexivity | discriminate].
Qed.

Lemma descending_missing_last (rows : list row) :
  descending rows -> missing_last rows.
Proof.
  intros Hd i j ri rj Hij Hi Hj Hmiss.
  specialize (Hd i j ri rj Hij Hi Hj).
  rewrite (sort_key_missing ri Hmiss) in Hd.
  apply not_before_empty in Hd. unfold sort_key, py_or in Hd.
  destruct (truthy (announced_on rj)) eqn:Ht; [|reflexivity].
  rewrite Hd in Ht. discriminate.
Qed.

(** C3: the list the pipeline returns is sorted by announcement date
    descending (a missing date counting as the empty string); it holds the
    accepted records, and records of equal date keep the order in which
    they were accepted; a record without a date comes after every record
    with one. *)
Theorem pick_two_latest_travel_sorted (cfg : config) (up : upstream) (rows : list row) :
  pick_two_latest_travel cfg up = Ok rows ->
  descending rows /\
  order_kept (picked (fst (run cfg up))) rows /\
  missing_last rows.
Proof.
  intros Hrows.
  apply picked_rows in Hrows as [_ Hsort].
  destruct (run_bounded cfg up) as (Hlen & _).
  assert (Hgoal : descending rows /\ order_kept (picked (fst (run cfg up))) rows).
  { destruct (picked (fst (run cfg up))) as [|a [|b [|c acc]]];
      [| | |cbn in Hlen; lia].
    - injection Hsort as <-. split; [|split; [reflexivity|]].
      + intros i j ri rj _ Hi. discriminate Hi.
      + intros i j ri rj _ Hi. discriminate Hi.
    - injection Hsort as <-. split; [|split; [reflexivity|]].
      + intros i [|j] ri rj Hij Hi Hj; [lia | discriminate Hj].
      + intros i [|j] ri rj Hij Hi Hj; [lia | discriminate Hj].
    - cbn [map] in Hsort. rewrite sort_reverse_two in Hsort.
      destruct (py_lt (sort_key a) (sort_key b)) as [[|]|e] eqn:Hlt;
        cbn in Hsort; [| |discriminate]; injection Hsort as <-.
      + split; [|split; [apply perm_swap|]].
        * intros [|[|i]] [|[|j]] ri rj Hij Hi Hj; try lia; try discriminate.
          injection Hi as <-. injection Hj as <-. now apply py_lt_asym.
        * intros [|[|i]] [|[|j]] ri rj Hij Hi Hj Hle; try lia; try discriminate.
          injection Hi as <-. injection Hj as <-. congruence.
      + split; [|split; [reflexivity|]].
        * intros [|[|i]] [|[|j]] ri rj Hij Hi Hj; try lia; try discriminate.
          injection Hi as <-. injection Hj as <-. exact Hlt.
        * intros i j ri rj Hij Hi Hj _. exists i, j. auto. }
  destruct Hgoal as [Hd Hk]. split; [exact Hd|]. split; [exact Hk|].
  now apply descending_missing_last.
Qed.

Lemma pick_two_latest_travel_sorted_witness :
  let rows := match pick_two_latest_travel default_config undated_upstream with
              | Ok rows => rows
              | Raise _ => []
              end in
  descending rows /\
  order_kept (picked (fst (run default_config undated_upstream))) rows /\
  missing_last rows.
Proof.
  apply (pick_two_latest_travel_sorted default_config undated_upstream).
  vm_compute. reflexivity.
Defined.

(** The undated round is served first and returned last. *)
Example undated_run :
  option_map (map (fun r => (company_name r, announced_on r, amount_usd r)))
    (match pick_two_latest_travel default_config undated_upstream with
     | Ok rows => Some rows
     | Raise _ => None
     end)
  = Some [ (VStr "Inn Co", VStr "2024-05-03", "$750,000"%string);
           (VStr "Sail Ltd", VNone, "Undisclosed"%string) ].
Proof. vm_compute. reflexivity. Qed.
